(** * Atom serializer of trailimage/feed ([src/atom.ts])

    A shallow embedding of the serializer and the properties its
    specification states about it.  JavaScript strings are [string]s (code
    units as [ascii]); string concatenation [+] is [+:+]. *)

From Stdlib Require Import Strings.Ascii.
From stdpp Require Import base strings list gmap sorting.

Local Open Scope string_scope.

(** ** Strings *)

(** The double-quote character, as a one-character string. *)
Definition dq : string := String (ascii_of_nat 34) EmptyString.

(** The apostrophe character. *)
Definition apostrophe : ascii := ascii_of_nat 39.

(** Concatenation of a list of strings, left to right. *)
Definition concat_strings (l : list string) : string :=
  foldr String.append EmptyString l.

(** [Array.prototype.join] on an array of strings. *)
Fixpoint join (l : list string) (sep : string) : string :=
  match l with
  | [] => EmptyString
  | [x] => x
  | x :: rest => x +:+ sep +:+ join rest sep
  end.

(** [String.prototype.includes]: [pat] occurs in [s]. *)
Fixpoint includes (s pat : string) : bool :=
  String.prefix pat s ||
  match s with
  | EmptyString => false
  | String _ s' => includes s' pat
  end.

(** ** Values of the data model ([types.ts], [@toba/tools]) *)

(** Modelled from the spec: the [TextType] enumeration of [types.ts], one of
    plain, html, xhtml; the test suite fixes the rendering of [Plain] as
    [text] and of [HTML] as [html]. *)
Inductive TextType := Plain | HTML | XHTML.

Definition TextType_string (t : TextType) : string :=
  match t with
  | Plain => "text"
  | HTML => "html"
  | XHTML => "xhtml"
  end.

(** Modelled from the spec: a structured [Text] is a pair of a value and a
    content type; the type may be missing, which is what the guard of
    [writeTextTag] tests. *)
Record Text := { text_value : string; text_type : option TextType }.

(** A [Date] is represented by the text its [toISOString] method returns (a
    valid date: the method throws on an invalid one). *)
Record Date := { toISOString : string }.

(** What a scalar field of an entity can hold. *)
Inductive value :=
| VUndefined
| VNull
| VString (s : string)
| VDate (d : Date)
| VText (t : Text).

(** [is.value]: neither [undefined] nor [null]. *)
Definition is_value (x : value) : bool :=
  match x with
  | VUndefined | VNull => false
  | _ => true
  end.

(** [is.empty] on the string argument of [writeTag]; [None] is the no-value
    sentinel ([null] or [undefined]). *)
Definition is_empty (x : option string) : bool :=
  match x with
  | None => true
  | Some s => if decide (s = EmptyString) then true else false
  end.

(** Modelled from the spec: [htmlEscape] of [@toba/tools] replaces the
    ampersand, the angle brackets and the quote characters with their entity
    forms, one pass over the text. *)
Definition htmlEscape_char (c : ascii) : string :=
  if Ascii.eqb c "&" then "&amp;"
  else if Ascii.eqb c "<" then "&lt;"
  else if Ascii.eqb c ">" then "&gt;"
  else if Ascii.eqb c (ascii_of_nat 34) then "&quot;"
  else if Ascii.eqb c apostrophe then "&#39;"
  else String c EmptyString.

Fixpoint htmlEscape (html : string) : string :=
  match html with
  | EmptyString => EmptyString
  | String c rest => htmlEscape_char c +:+ htmlEscape rest
  end.

(** ** Attributes *)

(** [Attributes] is a [Map<string, string>]: insertion order is the order of
    [keys()]. *)
Definition Attributes := list (string * string).

Definition Map_keys (m : Attributes) : list string := m.*1.

Fixpoint Map_get (m : Attributes) (key : string) : option string :=
  match m with
  | [] => None
  | (k, v) :: rest => if decide (k = key) then Some v else Map_get rest key
  end.

Fixpoint Map_set (key v : string) (m : Attributes) : Attributes :=
  match m with
  | [] => [(key, v)]
  | (k, w) :: rest =>
      if decide (k = key) then (k, v) :: rest else (k, w) :: Map_set key v rest
  end.

(** A template literal slot holding the result of [Map.get]. *)
Definition template_get (x : option string) : string :=
  match x with
  | Some s => s
  | None => "undefined"
  end.

Definition writeAttributes (attr : option Attributes) : string :=
  match attr with
  | Some attr =>
      fold_left
        (fun pairs key =>
           pairs +:+ " " +:+ key +:+ "=" +:+ dq +:+
           template_get (Map_get attr key) +:+ dq)
        (Map_keys attr) EmptyString
  | None => EmptyString
  end.

(** ** Tags *)

Definition writeTag (name : string) (value : option string)
    (attr : option Attributes) : string :=
  if is_empty value then EmptyString
  else
    "<" +:+ name +:+ writeAttributes attr +:+ ">" +:+
    htmlEscape (default EmptyString value) +:+ "</" +:+ name +:+ ">".

(** An entity is a record whose scalar fields are read by name
    ([entity[name]]); a name that is not one of its scalar fields reads as
    [undefined]. *)
Class Entity (T : Type) := field : string → T → value.

Definition writeEntityTag {T} `{Entity T} (name : string) (entity : T)
    (attr : option Attributes) : string :=
  let content := field name entity in
  let text :=
    match content with
    | VUndefined | VNull => EmptyString
    | VDate d => toISOString d
    | VString s => s
    | VText _ => "[object Object]"
    end in
  writeTag name (Some text) attr.

Definition writeTextTag {T} `{Entity T} (name : string) (entity : T) : string :=
  let content := field name entity in
  let attr : Attributes := [] in
  let '(value, attr) :=
    if is_value content then
      let '(type, value) :=
        match content with
        | VString s => (Some Plain, Some s)
        | VText t => (text_type t, Some (text_value t))
        | _ => (None, None)
        end in
      match type with
      | Some ty => (value, Map_set "type" (TextType_string ty) attr)
      | None => (value, attr)
      end
    else (Some EmptyString, attr) in
  writeTag name value (Some attr).

(** ** Entities *)

(** Modelled from the spec: [Person] of [types.ts], a name with an optional
    uri and an optional email. *)
Record Person := {
  person_name : value;
  person_uri : value;
  person_email : value
}.

#[export] Instance Person_entity : Entity Person := fun key p =>
  if decide (key = "name") then person_name p
  else if decide (key = "uri") then person_uri p
  else if decide (key = "email") then person_email p
  else VUndefined.

(** Modelled from the spec: [Generator] of [types.ts], a name with an
    optional uri and version; [generator] is the property that
    [writeGenerator] assigns. *)
Record Generator := {
  generator_name : value;
  generator_uri : value;
  generator_version : value;
  generator_generator : value
}.

#[export] Instance Generator_entity : Entity Generator := fun key g =>
  if decide (key = "name") then generator_name g
  else if decide (key = "uri") then generator_uri g
  else if decide (key = "version") then generator_version g
  else if decide (key = "generator") then generator_generator g
  else VUndefined.

(** A field typed [Person | Person[]] holds a reference to one person or to
    an array of persons.  References are compared by identity, so the
    objects live in a store and the fields hold locations. *)
Definition loc := positive.

Inductive persons :=
| OnePerson (p : Person)
| ManyPersons (ps : list Person).

Definition store := loc → persons.

Inductive ref :=
| RUndefined
| RNull
| RObject (l : loc).

#[export] Instance ref_eq_dec : EqDecision ref.
Proof. solve_decision. Defined.

(** Reading through a reference; [None] when there is no object. *)
Definition deref (σ : store) (r : ref) : option persons :=
  match r with
  | RObject l => Some (σ l)
  | RUndefined | RNull => None
  end.

(** The loose equality [==] on references: [null] and [undefined] are equal
    to each other, objects are equal when they are the same object. *)
Definition loose_eq (a b : ref) : bool :=
  match a, b with
  | RObject l1, RObject l2 => bool_decide (l1 = l2)
  | RObject _, _ | _, RObject _ => false
  | _, _ => true
  end.

(** A default parameter value applies when the argument is [undefined]. *)
Definition default_param (arg dflt : ref) : ref :=
  match arg with
  | RUndefined => dflt
  | _ => arg
  end.

(** Modelled from the spec: a link descriptor has [href] and optionally [rel]
    and [type].  It is read as a plain object: its own keys, each holding a
    string or nothing ([null], [undefined]). *)
Inductive link_item :=
| LinkText (s : string)
| LinkObject (o : gmap string (option string)).

Inductive link_arg :=
| OneLink (l : link_item)
| ManyLinks (ls : list link_item).

(** Modelled from the spec: [Entry] of [types.ts]. *)
Record Entry := {
  entry_id : value;
  entry_title : value;
  entry_updated : value;
  entry_published : value;
  entry_author : ref;
  entry_contributor : ref;
  entry_rights : value;
  entry_content : value;
  entry_summary : value;
  entry_link : option link_arg
}.

#[export] Instance Entry_entity : Entity Entry := fun key e =>
  if decide (key = "id") then entry_id e
  else if decide (key = "title") then entry_title e
  else if decide (key = "updated") then entry_updated e
  else if decide (key = "published") then entry_published e
  else if decide (key = "rights") then entry_rights e
  else if decide (key = "content") then entry_content e
  else if decide (key = "summary") then entry_summary e
  else VUndefined.

(** Modelled from the spec: [Feed] of [types.ts]. *)
Record Feed := {
  feed_id : value;
  feed_title : value;
  feed_subtitle : value;
  feed_rights : value;
  feed_author : ref;
  feed_generator : option Generator;
  feed_entry : list Entry
}.

#[export] Instance Feed_entity : Entity Feed := fun key f =>
  if decide (key = "id") then feed_id f
  else if decide (key = "title") then feed_title f
  else if decide (key = "subtitle") then feed_subtitle f
  else if decide (key = "rights") then feed_rights f
  else VUndefined.

(** ** Writers *)

(** [g.generator = g.name]. *)
Definition set_generator (g : Generator) : Generator :=
  {| generator_name := generator_name g;
     generator_uri := generator_uri g;
     generator_version := generator_version g;
     generator_generator := generator_name g |}.

(** The element text that [writeGenerator] computes in its statement
    [writeEntityTag('generator', g)], after the assignment. *)
Definition generator_element (g : Generator) : string :=
  writeEntityTag "generator" (set_generator g) None.

(** [writeGenerator] assigns to its argument, so it returns the object as it
    is after the call next to the string. *)
Definition writeGenerator (g : option Generator) : string * option Generator :=
  match g with
  | Some g =>
      let g := set_generator g in
      let _ := writeEntityTag "generator" g None in
      (EmptyString, Some g)
  | None => (EmptyString, None)
  end.

(** The role tag of [writePerson]: ['author' | 'contributor']. *)
Inductive role := author | contributor.

Definition role_string (tag : role) : string :=
  match tag with
  | author => "author"
  | contributor => "contributor"
  end.

(** The branch of [writePerson] for one person. *)
Definition writeOnePerson (tag : role) (person : Person) : string :=
  "<" +:+ role_string tag +:+ ">" +:+
  writeEntityTag "name" person None +:+
  writeEntityTag "uri" person None +:+
  writeEntityTag "email" person None +:+
  "</" +:+ role_string tag +:+ ">".

(** [writePerson]; the recursive call on an element of the array reaches the
    branch for one person. *)
Definition writePerson (tag : role) (person : option persons) : string :=
  match person with
  | Some (ManyPersons ps) =>
      fold_left (fun list p => list +:+ writeOnePerson tag p) ps EmptyString
  | Some (OnePerson p) => writeOnePerson tag p
  | None => EmptyString
  end.

(** Modelled from the spec: [LinkRelation.Alternate] of [@toba/tools]. *)
Definition LinkRelation_Alternate : string := "alternate".

(** [Object.keys(link)]; the order of the keys is lost in the map, and the
    caller sorts them: [Array.prototype.sort] without a comparator orders
    strings by their code units, which is [String.le]. *)
Definition Object_keys (o : gmap string (option string)) : list string :=
  (map_to_list o).*1.

(** [link[key]]: a missing key and a key holding nothing read alike. *)
Definition get_property (o : gmap string (option string)) (key : string)
    : option string :=
  mjoin (o !! key).

(** The branch of [writeLink] for one descriptor. *)
Definition writeLinkObject (link : gmap string (option string)) : string :=
  "<link" +:+
  fold_left
    (fun attr key =>
       let value := get_property link key in
       attr +:+
       match value with
       | Some v => " " +:+ key +:+ "=" +:+ dq +:+ v +:+ dq
       | None => EmptyString
       end)
    (merge_sort String.le (Object_keys link)) EmptyString +:+
  "/>".

(** The branches of [writeLink] for one link: a string is written as the
    descriptor with that [href] and the relation [alternate]. *)
Definition writeOneLink (link : link_item) : string :=
  match link with
  | LinkText s =>
      writeLinkObject
        (<["href" := Some s]> (<["rel" := Some LinkRelation_Alternate]> ∅))
  | LinkObject o => writeLinkObject o
  end.

Definition writeLink (link : link_arg) : string :=
  match link with
  | ManyLinks ls =>
      fold_left (fun list l => list +:+ writeOneLink l) ls EmptyString
  | OneLink l => writeOneLink l
  end.

Definition writeEntry (σ : store) (entry : Entry) (feedAuthor : ref) : string :=
  let feedAuthor := default_param feedAuthor RNull in
  "<entry>" +:+
  writeEntityTag "id" entry None +:+
  writeTextTag "title" entry +:+
  writeEntityTag "updated" entry None +:+
  writeEntityTag "published" entry None +:+
  (if loose_eq feedAuthor (entry_author entry) then EmptyString
   else writePerson author (deref σ (entry_author entry))) +:+
  writePerson contributor (deref σ (entry_contributor entry)) +:+
  writeTextTag "rights" entry +:+
  writeTextTag "content" entry +:+
  writeTextTag "summary" entry +:+
  "</entry>".

Definition prologue : string :=
  "<?xml version=" +:+ dq +:+ "1.0" +:+ dq +:+
  " encoding=" +:+ dq +:+ "utf-8" +:+ dq +:+ "?>".

Definition feed_open : string :=
  "<feed xmlns=" +:+ dq +:+ "http://www.w3.org/2005/Atom" +:+ dq +:+ ">".

(** [write] returns the document; the feed is returned with it, as the
    call leaves it. *)
Definition write (σ : store) (feed : Feed) : string * Feed :=
  let id := writeEntityTag "id" feed None in
  let title := writeEntityTag "title" feed None in
  let subtitle := writeEntityTag "subtitle" feed None in
  let rights := writeEntityTag "rights" feed None in
  let person := writePerson author (deref σ (feed_author feed)) in
  let '(generator, g) := writeGenerator (feed_generator feed) in
  let feed :=
    {| feed_id := feed_id feed;
       feed_title := feed_title feed;
       feed_subtitle := feed_subtitle feed;
       feed_rights := feed_rights feed;
       feed_author := feed_author feed;
       feed_generator := g;
       feed_entry := feed_entry feed |} in
  (prologue +:+ feed_open +:+
   id +:+ title +:+ subtitle +:+ rights +:+ person +:+ generator +:+
   join (map (fun e => writeEntry σ e (feed_author feed)) (feed_entry feed))
     EmptyString +:+
   "</feed>",
   feed).

(** [ISyndicate<Feed>]: a source that exports a feed. *)
Class ISyndicate (S : Type) := rssJSON : S → Feed.

Definition render {S} `{ISyndicate S} (σ : store) (source : S) : string * Feed :=
  write σ (rssJSON source).

(** ** Sample data *)

(** The persons of the test suite. *)
Definition bob : Person :=
  {| person_name := VString "Bob"; person_uri := VUndefined;
     person_email := VString "bob@test.com" |}.

(** A person none of whose fields has content. *)
Definition nobody : Person :=
  {| person_name := VString EmptyString; person_uri := VUndefined;
     person_email := VNull |}.

(** An entry none of whose fields has content. *)
Definition empty_entry : Entry :=
  {| entry_id := VUndefined; entry_title := VUndefined;
     entry_updated := VUndefined; entry_published := VUndefined;
     entry_author := RUndefined; entry_contributor := RNull;
     entry_rights := VUndefined; entry_content := VUndefined;
     entry_summary := VUndefined; entry_link := None |}.

(** The entry of the test suite, at a fixed date. *)
Definition sample_entry : Entry :=
  {| entry_id := VString "id"; entry_title := VString "title";
     entry_updated := VDate {| toISOString := "2019-01-01T00:00:00.000Z" |};
     entry_published := VDate {| toISOString := "2019-01-01T00:00:00.000Z" |};
     entry_author := RUndefined; entry_contributor := RNull;
     entry_rights := VUndefined; entry_content := VString "content";
     entry_summary :=
       VText {| text_value := "<p>summary</p>"; text_type := Some HTML |};
     entry_link :=
       Some (OneLink (LinkObject {[ "href" := Some "http://test.com" ]})) |}.

(** The generator of the documentation of [writeGenerator]. *)
Definition example_generator : Generator :=
  {| generator_name := VString "Example Toolkit";
     generator_uri := VString "http://www.example.com/";
     generator_version := VString "1.0";
     generator_generator := VUndefined |}.

(** A feed with a generator, an author and two entries. *)
Definition sample_feed : Feed :=
  {| feed_id := VString "id"; feed_title := VString "title";
     feed_subtitle := VUndefined; feed_rights := VUndefined;
     feed_author := RObject 1%positive; feed_generator := Some example_generator;
     feed_entry := [sample_entry; empty_entry] |}.

(** A store in which every location holds an object equal to [bob]. *)
Definition sample_store : store := fun _ => OnePerson bob.

(** The descriptor [{href, type, rel}] of the test suite. *)
Definition enclosure_link : gmap string (option string) :=
  <["href" := Some "http://x"]>
    (<["type" := Some "atom+xml"]> (<["rel" := Some "enclosure"]> ∅)).

(** ** Definitions used by the statements *)

(** The attribute that [writeTextTag] gives to a text of type [ty]. *)
Definition type_attribute (ty : option TextType) : Attributes :=
  match ty with
  | Some ty => [("type", TextType_string ty)]
  | None => []
  end.

(** The element written for one person under the role [tag]. *)
Definition person_element (tag : role) (p : Person) : string :=
  "<" +:+ role_string tag +:+ ">" +:+
  writeEntityTag "name" p None +:+
  writeEntityTag "uri" p None +:+
  writeEntityTag "email" p None +:+
  "</" +:+ role_string tag +:+ ">".

(** A feed whose author and only entry have no content. *)
Definition anonymous_feed : Feed :=
  {| feed_id := VUndefined; feed_title := VUndefined;
     feed_subtitle := VUndefined; feed_rights := VUndefined;
     feed_author := RObject 2%positive; feed_generator := None;
     feed_entry := [empty_entry] |}.

(** A store in which every location holds an object equal to [nobody]. *)
Definition anonymous_store : store := fun _ => OnePerson nobody.

(** What [writeEntry] writes before the author of the entry. *)
Definition entry_before_author (entry : Entry) : string :=
  "<entry>" +:+
  writeEntityTag "id" entry None +:+
  writeTextTag "title" entry +:+
  writeEntityTag "updated" entry None +:+
  writeEntityTag "published" entry None.

(** What [writeEntry] writes after the author of the entry. *)
Definition entry_after_author (σ : store) (entry : Entry) : string :=
  writePerson contributor (deref σ (entry_contributor entry)) +:+
  writeTextTag "rights" entry +:+
  writeTextTag "content" entry +:+
  writeTextTag "summary" entry +:+
  "</entry>".

(** A feed that has a title and nothing else. *)
Definition titled_feed (title : value) : Feed :=
  {| feed_id := VUndefined; feed_title := title;
     feed_subtitle := VUndefined; feed_rights := VUndefined;
     feed_author := RUndefined; feed_generator := None;
     feed_entry := [] |}.

(** What [writeEntry] writes after the title. *)
Definition entry_after_title (σ : store) (entry : Entry) (feedAuthor : ref)
    : string :=
  writeEntityTag "updated" entry None +:+
  writeEntityTag "published" entry None +:+
  (if loose_eq (default_param feedAuthor RNull) (entry_author entry)
   then EmptyString
   else writePerson author (deref σ (entry_author entry))) +:+
  entry_after_author σ entry.

(** What the reducer of [writeLink] appends for one key. *)
Definition link_attribute (o : gmap string (option string)) (key : string)
    : string :=
  match get_property o key with
  | Some v => " " +:+ key +:+ "=" +:+ dq +:+ v +:+ dq
  | None => EmptyString
  end.

(** The keys of a descriptor that hold a string, sorted. *)
Definition present_keys (o : gmap string (option string)) : list string :=
  filter (fun key => is_Some (get_property o key))
    (merge_sort String.le (Object_keys o)).

(** A descriptor whose relation is the empty string. *)
Definition empty_rel_link : gmap string (option string) :=
  <["href" := Some "h"]> (<["rel" := Some EmptyString]> ∅).

(** A scan for an opening angle bracket followed by the letter l: the state
    is whether the last character read was the bracket, and the scan fails
    when the pair is found. *)
Fixpoint scan (after_lt : bool) (s : string) : option bool :=
  match s with
  | EmptyString => Some after_lt
  | String c rest =>
      if after_lt && Ascii.eqb c "l" then None
      else scan (Ascii.eqb c "<") rest
  end.

(** A piece of output that holds no such pair and does not end in a
    bracket. *)
Definition clean (s : string) : Prop := scan false s = Some false.

(** What a tag name must be for its tags to be clean: read after a
    bracket, it does not start a link element. *)
Definition clean_name (name : string) : Prop := scan true name = Some false.

(** The entry without its link. *)
Definition without_link (entry : Entry) : Entry :=
  {| entry_id := entry_id entry;
     entry_title := entry_title entry;
     entry_updated := entry_updated entry;
     entry_published := entry_published entry;
     entry_author := entry_author entry;
     entry_contributor := entry_contributor entry;
     entry_rights := entry_rights entry;
     entry_content := entry_content entry;
     entry_summary := entry_summary entry;
     entry_link := None |}.

(** The feed with the links of its entries removed. *)
Definition without_links (feed : Feed) : Feed :=
  {| feed_id := feed_id feed;
     feed_title := feed_title feed;
     feed_subtitle := feed_subtitle feed;
     feed_rights := feed_rights feed;
     feed_author := feed_author feed;
     feed_generator := feed_generator feed;
     feed_entry := map without_link (feed_entry feed) |}.

(** The keys of an entity that hold scalars, the ones that [field] reads:
    these are the keys the writers pass to [writeEntityTag] and
    [writeTextTag]. *)
Class ScalarKeys (T : Type) `{Entity T} := scalar_keys : list string.

#[export] Instance Person_keys : ScalarKeys Person :=
  ["name"; "uri"; "email"].

#[export] Instance Generator_keys : ScalarKeys Generator :=
  ["name"; "uri"; "version"; "generator"].

#[export] Instance Entry_keys : ScalarKeys Entry :=
  ["id"; "title"; "updated"; "published"; "rights"; "content"; "summary"].

#[export] Instance Feed_keys : ScalarKeys Feed :=
  ["id"; "title"; "subtitle"; "rights"].

(** How [writeAttributes] writes one pair of the map. *)
Definition attribute_pair (kv : string * string) : string :=
  " " +:+ kv.1 +:+ "=" +:+ dq +:+ kv.2 +:+ dq.

(** The feed with another generator. *)
Definition with_generator (feed : Feed) (g : option Generator) : Feed :=
  {| feed_id := feed_id feed;
     feed_title := feed_title feed;
     feed_subtitle := feed_subtitle feed;
     feed_rights := feed_rights feed;
     feed_author := feed_author feed;
     feed_generator := g;
     feed_entry := feed_entry feed |}.

(** The location a reference points to, if any. *)
Definition ref_locs (r : ref) : list loc :=
  match r with
  | RObject l => [l]
  | RUndefined | RNull => []
  end.

(** The locations an entry and a feed refer to. *)
Definition entry_locs (entry : Entry) : list loc :=
  ref_locs (entry_author entry) ++ ref_locs (entry_contributor entry).

Definition feed_locs (feed : Feed) : list loc :=
  ref_locs (feed_author feed) ++ flat_map entry_locs (feed_entry feed).

(** An entry that has an author object and an identifier. *)
Definition authored_entry : Entry :=
  {| entry_id := VString "id"; entry_title := VUndefined;
     entry_updated := VUndefined; entry_published := VUndefined;
     entry_author := RObject 1%positive; entry_contributor := RNull;
     entry_rights := VUndefined; entry_content := VUndefined;
     entry_summary := VUndefined; entry_link := None |}.

(** A store that holds [bob] at the first location and [nobody] elsewhere. *)
Definition bob_first_store : store :=
  fun l => if decide (l = 1%positive) then OnePerson bob else OnePerson nobody.

(** A descriptor whose only key holds nothing. *)
Definition null_rel_link : gmap string (option string) :=
  <["rel" := None]> ∅.

(** ** Strings: concatenation *)

Section strings.
Implicit Types (s t u : string) (l : list string).

Lemma append_cons c s t : String c s +:+ t = String c (s +:+ t).
Proof. reflexivity. Qed.

Lemma append_empty_l s : EmptyString +:+ s = s.
Proof. reflexivity. Qed.

Lemma append_empty_r s : s +:+ EmptyString = s.
Proof. induction s as [|c s IH]; [done|]. by rewrite append_cons, IH. Qed.

Lemma append_assoc s t u : (s +:+ t) +:+ u = s +:+ (t +:+ u).
Proof. induction s as [|c s IH]; [done|]. by rewrite !append_cons, IH. Qed.

Lemma concat_strings_cons s l :
  concat_strings (s :: l) = s +:+ concat_strings l.
Proof. done. Qed.

Lemma concat_strings_app l1 l2 :
  concat_strings (l1 ++ l2) = concat_strings l1 +:+ concat_strings l2.
Proof.
  induction l1 as [|s l1 IH]; [done|].
  by rewrite <- app_comm_cons, !concat_strings_cons, IH, append_assoc.
Qed.

(** Joining on the empty separator is concatenation. *)
Lemma join_empty l : join l EmptyString = concat_strings l.
Proof.
  induction l as [|s [|t l] IH]; [done| |].
  - symmetry. apply append_empty_r.
  - change (join (s :: t :: l) EmptyString)
      with (s +:+ EmptyString +:+ join (t :: l) EmptyString).
    by rewrite IH.
Qed.

(** A [reduce] that appends the rendering of each element. *)
Lemma fold_left_append {A} (f : A → string) (xs : list A) s :
  fold_left (fun acc x => acc +:+ f x) xs s
  = s +:+ concat_strings (map f xs).
Proof.
  revert s. induction xs as [|x xs IH]; intros s.
  - symmetry. apply append_empty_r.
  - cbn [fold_left map]. by rewrite IH, concat_strings_cons, append_assoc.
Qed.
End strings.

(** ** The test suite of the repository ([atom.test.ts]) *)

Example test_writes_basic_tags :
  writeTag "tag" (Some "value1") None = "<tag>value1</tag>"
  ∧ writeTag "when" (Some "value2") None = "<when>value2</when>".
Proof. split; reflexivity. Qed.

Example test_writes_text_tags :
  writeTextTag "summary" sample_entry
    = "<summary type=" +:+ dq +:+ "html" +:+ dq +:+ ">" +:+
      htmlEscape "<p>summary</p>" +:+ "</summary>"
  ∧ writeTextTag "title" sample_entry
    = "<title type=" +:+ dq +:+ "text" +:+ dq +:+ ">title</title>".
Proof. split; reflexivity. Qed.

Example test_writes_entity_tags :
  writeEntityTag "name" bob None = "<name>Bob</name>"
  ∧ writeEntityTag "updated" sample_entry None
    = "<updated>2019-01-01T00:00:00.000Z</updated>".
Proof. split; reflexivity. Qed.

Example test_writes_attribute_key_values :
  writeAttributes (Some [("key1", "value1"); ("key2", "value2")])
    = " key1=" +:+ dq +:+ "value1" +:+ dq +:+
      " key2=" +:+ dq +:+ "value2" +:+ dq
  ∧ writeAttributes None = EmptyString.
Proof. split; reflexivity. Qed.

Example test_writes_person :
  writePerson author (Some (OnePerson bob))
    = "<author><name>Bob</name><email>bob@test.com</email></author>"
  ∧ writePerson author (Some (ManyPersons [nobody; bob]))
    = writePerson author (Some (OnePerson nobody)) +:+
      writePerson author (Some (OnePerson bob)).
Proof. split; reflexivity. Qed.

Example test_writes_link :
  writeLink (OneLink (LinkObject enclosure_link))
    = "<link href=" +:+ dq +:+ "http://x" +:+ dq +:+
      " rel=" +:+ dq +:+ "enclosure" +:+ dq +:+
      " type=" +:+ dq +:+ "atom+xml" +:+ dq +:+ "/>"
  ∧ writeLink (ManyLinks [LinkText "http://a"; LinkObject enclosure_link])
    = writeLink (OneLink (LinkText "http://a")) +:+
      writeLink (OneLink (LinkObject enclosure_link)).
Proof. split; vm_compute; reflexivity. Qed.

(** ** The document written by [write] *)

Lemma writeGenerator_fst g : (writeGenerator g).1 = EmptyString.
Proof. by destruct g. Qed.

Lemma writeGenerator_snd g : (writeGenerator g).2 = set_generator <$> g.
Proof. by destruct g. Qed.

(** The document, part by part. *)
Lemma write_fst (σ : store) (feed : Feed) :
  (write σ feed).1 =
    prologue +:+ feed_open +:+
    writeEntityTag "id" feed None +:+
    writeEntityTag "title" feed None +:+
    writeEntityTag "subtitle" feed None +:+
    writeEntityTag "rights" feed None +:+
    writePerson author (deref σ (feed_author feed)) +:+
    (writeGenerator (feed_generator feed)).1 +:+
    concat_strings
      (map (fun e => writeEntry σ e (feed_author feed)) (feed_entry feed)) +:+
    "</feed>".
Proof.
  unfold write.
  destruct (writeGenerator (feed_generator feed)) as [generator g] eqn:Hg.
  cbn [fst feed_author feed_entry].
  by rewrite join_empty.
Qed.

(** C1: [write] returns the prologue, then the [feed] element holding the
    entity tags of id, title, subtitle and rights, the author written by
    [writePerson], what [writeGenerator] returns, and the entries written by
    [writeEntry] in the order of the feed, then the closing tag. *)
Theorem write_document (σ : store) (feed : Feed) :
  (write σ feed).1 =
    prologue +:+ feed_open +:+
    writeEntityTag "id" feed None +:+
    writeEntityTag "title" feed None +:+
    writeEntityTag "subtitle" feed None +:+
    writeEntityTag "rights" feed None +:+
    writePerson author (deref σ (feed_author feed)) +:+
    (writeGenerator (feed_generator feed)).1 +:+
    concat_strings
      (map (fun e => writeEntry σ e (feed_author feed)) (feed_entry feed)) +:+
    "</feed>"
  ∧ prologue = String.concat dq
      ["<?xml version="; "1.0"; " encoding="; "utf-8"; "?>"]
  ∧ feed_open = String.concat dq
      ["<feed xmlns="; "http://www.w3.org/2005/Atom"; ">"].
Proof. split; [apply write_fst|]. split; reflexivity. Qed.

(** C2: on the generator of the documentation of [writeGenerator], the
    function computes the element and returns the empty string. *)
Theorem writeGenerator_discards_element :
  generator_element example_generator
    = "<generator>Example Toolkit</generator>"
  ∧ (writeGenerator (Some example_generator)).1 = EmptyString.
Proof. split; reflexivity. Qed.

(** ** What [write] leaves behind *)

(** What the assignment in [writeGenerator] changes. *)
Lemma set_generator_fields g :
  generator_name (set_generator g) = generator_name g
  ∧ generator_uri (set_generator g) = generator_uri g
  ∧ generator_version (set_generator g) = generator_version g
  ∧ generator_generator (set_generator g) = generator_name g.
Proof. done. Qed.

(** C3: serializing the sample feed assigns the [generator] property of its
    generator, which held nothing before, first in [writeGenerator] and so
    in [write]: the serializer writes to the model it reads. *)
Theorem write_assigns_generator :
  generator_generator <$> feed_generator sample_feed = Some VUndefined
  ∧ generator_generator <$> (writeGenerator (feed_generator sample_feed)).2
    = Some (VString "Example Toolkit")
  ∧ generator_generator <$> feed_generator (write sample_store sample_feed).2
    = Some (VString "Example Toolkit").
Proof. repeat split; reflexivity. Qed.

(** ** [writeTag] and escaping *)

Lemma writeAttributes_type (ty : string) :
  writeAttributes (Some [("type", ty)]) = " type=" +:+ dq +:+ ty +:+ dq.
Proof. reflexivity. Qed.

Lemma writeAttributes_empty : writeAttributes (Some []) = EmptyString.
Proof. reflexivity. Qed.

(** A structured text is written by [writeTag] with its value as content,
    whatever its type. *)
Lemma writeTextTag_structured {T} `{Entity T} (name : string) (entity : T)
    (v : string) (ty : option TextType) :
  field name entity = VText {| text_value := v; text_type := ty |} →
  writeTextTag name entity = writeTag name (Some v) (Some (type_attribute ty)).
Proof. intros Hf. unfold writeTextTag. rewrite Hf. by destruct ty. Qed.

(** A bare string is written as plain text. *)
Lemma writeTextTag_string {T} `{Entity T} (name : string) (entity : T)
    (v : string) :
  field name entity = VString v →
  writeTextTag name entity
  = writeTag name (Some v) (Some (type_attribute (Some Plain))).
Proof. intros Hf. unfold writeTextTag. by rewrite Hf. Qed.

Lemma writeTag_nonempty name c s attr :
  writeTag name (Some (String c s)) attr =
    "<" +:+ name +:+ writeAttributes attr +:+ ">" +:+
    htmlEscape (String c s) +:+ "</" +:+ name +:+ ">".
Proof. reflexivity. Qed.

(** C7: [writeTag] returns the empty string for an empty content or the
    no-value sentinel, whatever the attributes; otherwise the element with
    its attributes and its content escaped in one pass, the ampersand, the
    angle brackets and the quotes replaced by entities, for every text type
    alike. *)
Theorem writeTag_spec (name : string) (attr : option Attributes) :
  writeTag name None attr = EmptyString
  ∧ writeTag name (Some EmptyString) attr = EmptyString
  ∧ (∀ c s,
       writeTag name (Some (String c s)) attr =
         "<" +:+ name +:+ writeAttributes attr +:+ ">" +:+
         htmlEscape (String c s) +:+ "</" +:+ name +:+ ">")
  ∧ (∀ c s, htmlEscape (String c s) = htmlEscape_char c +:+ htmlEscape s)
  ∧ htmlEscape EmptyString = EmptyString
  ∧ htmlEscape "&" = "&amp;"
  ∧ htmlEscape "<" = "&lt;"
  ∧ htmlEscape ">" = "&gt;"
  ∧ htmlEscape dq = "&quot;"
  ∧ htmlEscape (String apostrophe EmptyString) = "&#39;"
  ∧ (∀ c, c ∉ ["&"; "<"; ">"; ascii_of_nat 34; apostrophe]%char →
       htmlEscape_char c = String c EmptyString)
  ∧ (∀ (entry : Entry) key c s ty,
       field key entry
         = VText {| text_value := String c s; text_type := Some ty |} →
       writeTextTag key entry =
         "<" +:+ key +:+ " type=" +:+ dq +:+ TextType_string ty +:+ dq +:+
         ">" +:+ htmlEscape (String c s) +:+ "</" +:+ key +:+ ">")
  ∧ writeTag "t" (Some "<p>&x</p>") None = "<t>&lt;p&gt;&amp;x&lt;/p&gt;</t>"
  ∧ htmlEscape (htmlEscape "<p>&x</p>") = "&amp;lt;p&amp;gt;&amp;amp;x&amp;lt;/p&amp;gt;".
Proof.
  repeat split; try reflexivity.
  - intros c Hc. unfold htmlEscape_char.
    repeat match goal with
    | |- context [Ascii.eqb c ?d] =>
        destruct (Ascii.eqb_spec c d) as [->|_];
        [exfalso; apply Hc; set_solver|]
    end.
    reflexivity.
  - intros entry key c s ty Hf.
    rewrite (writeTextTag_structured key entry (String c s) (Some ty) Hf).
    rewrite writeTag_nonempty. cbn [type_attribute].
    by rewrite writeAttributes_type, !append_assoc.
Qed.

(** ** [writePerson] *)

Lemma writeEntityTag_absent {T} `{Entity T} (name : string) (entity : T)
    (attr : option Attributes) :
  is_value (field name entity) = false → writeEntityTag name entity attr = EmptyString.
Proof.
  intros Hv. unfold writeEntityTag. by destruct (field name entity).
Qed.

(** C9: for a sequence of persons [writePerson] returns the elements of the
    persons one after the other, in the order of the sequence, each in its
    own role element holding the entity tags of name, uri and email, a field
    that holds nothing writing nothing; with no person it returns the empty
    string. *)
Theorem writePerson_sequence (tag : role) (ps : list Person) (p : Person) :
  writePerson tag (Some (ManyPersons ps))
    = concat_strings (map (person_element tag) ps)
  ∧ length (map (person_element tag) ps) = length ps
  ∧ writePerson tag (Some (OnePerson p)) = person_element tag p
  ∧ writePerson tag None = EmptyString
  ∧ (∀ key, is_value (field key p) = false →
       writeEntityTag key p None = EmptyString)
  ∧ writePerson author (Some (OnePerson bob))
    = "<author><name>Bob</name><email>bob@test.com</email></author>"
  ∧ writePerson author (Some (ManyPersons [bob; bob]))
    = "<author><name>Bob</name><email>bob@test.com</email></author>" +:+
      "<author><name>Bob</name><email>bob@test.com</email></author>".
Proof.
  repeat split; try reflexivity.
  - cbn [writePerson]. by rewrite fold_left_append.
  - apply length_map.
  - intros key. apply writeEntityTag_absent.
Qed.

(** ** Empty elements *)

(** C4, as stated, fails: a person with no name and an entry with no field
    are written as empty elements. *)
Lemma write_empty_wrappers :
  (write anonymous_store anonymous_feed).1
    = prologue +:+ feed_open +:+ "<author></author><entry></entry></feed>"
  ∧ includes (write anonymous_store anonymous_feed).1 "<author></author>" = true
  ∧ includes (write anonymous_store anonymous_feed).1 "<entry></entry>" = true.
Proof. repeat split; vm_compute; reflexivity. Qed.

Lemma htmlEscape_char_nonempty c :
  ∃ c' s', htmlEscape_char c = String c' s'.
Proof.
  unfold htmlEscape_char.
  repeat match goal with
  | |- context [Ascii.eqb c ?d] => destruct (Ascii.eqb c d)
  end; eauto.
Qed.

Lemma htmlEscape_nonempty c s : ∃ c' s', htmlEscape (String c s) = String c' s'.
Proof.
  destruct (htmlEscape_char_nonempty c) as (c' & s' & Hc).
  exists c', (s' +:+ htmlEscape s). cbn [htmlEscape]. by rewrite Hc.
Qed.

Lemma writeTag_empty_iff name value attr :
  writeTag name value attr = EmptyString ↔ is_empty value = true.
Proof.
  unfold writeTag. destruct (is_empty value); [done|].
  split; [|done]. intros Hw. discriminate Hw.
Qed.

(** C4, amended: an element written by [writeTag], which is every entity tag
    and every text tag, is written only when its content is not empty, and
    then its escaped content is not empty either; the role element of a
    person, the [entry] element and the [feed] element are written whatever
    they hold. *)
Theorem writeTag_no_empty_element (σ : store) (name : string)
    (value : option string) (attr : option Attributes) :
  (writeTag name value attr = EmptyString ↔ is_empty value = true)
  ∧ (∀ c s, ∃ c' s',
       writeTag name (Some (String c s)) attr =
         "<" +:+ name +:+ writeAttributes attr +:+ ">" +:+
         String c' s' +:+ "</" +:+ name +:+ ">")
  ∧ (∀ (feed : Feed) (entry : Entry) (p : Person),
       (∃ v, writeEntityTag name feed attr = writeTag name (Some v) attr)
       ∧ (∃ v, writeEntityTag name entry attr = writeTag name (Some v) attr)
       ∧ (∃ v, writeEntityTag name p attr = writeTag name (Some v) attr)
       ∧ (∃ v a, writeTextTag name entry = writeTag name v a))
  ∧ (∀ tag, writePerson tag (Some (OnePerson nobody))
       = "<" +:+ role_string tag +:+ "></" +:+ role_string tag +:+ ">")
  ∧ (∀ feedAuthor, writeEntry σ empty_entry feedAuthor = "<entry></entry>").
Proof.
  split; [apply writeTag_empty_iff|].
  split.
  { intros c s. destruct (htmlEscape_nonempty c s) as (c' & s' & He).
    exists c', s'. by rewrite writeTag_nonempty, He. }
  split.
  { intros feed entry p. unfold writeEntityTag.
    repeat split; [by eexists..|].
    unfold writeTextTag.
    destruct (field name entry) as [| |v|d|[v [ty|]]]; cbn;
      first [by do 2 eexists | by exists None, None]. }
  split.
  { by intros []. }
  by intros [| |l].
Qed.

(** ** The author of an entry *)

Lemma writeEntry_parts σ entry feedAuthor :
  writeEntry σ entry feedAuthor =
    entry_before_author entry +:+
    (if loose_eq (default_param feedAuthor RNull) (entry_author entry)
     then EmptyString
     else writePerson author (deref σ (entry_author entry))) +:+
    entry_after_author σ entry.
Proof.
  unfold writeEntry, entry_before_author, entry_after_author.
  by rewrite !append_assoc.
Qed.

Lemma loose_eq_object a l :
  loose_eq (default_param a RNull) (RObject l) = bool_decide (a = RObject l).
Proof.
  destruct a as [| |l']; [done..|]. cbn.
  apply bool_decide_ext. split; [by intros ->|by intros [= ->]].
Qed.

Lemma writePerson_one_nonempty tag p :
  ∃ s, writePerson tag (Some (OnePerson p)) = String "<" s.
Proof. cbn. unfold writeOnePerson. eexists. reflexivity. Qed.


(** Two author objects with equal values: the entry still writes its own. *)
Example writeEntry_equal_valued_author :
  let entry :=
    {| entry_id := VString "id"; entry_title := VUndefined;
       entry_updated := VUndefined; entry_published := VUndefined;
       entry_author := RObject 1%positive; entry_contributor := RNull;
       entry_rights := VUndefined; entry_content := VUndefined;
       entry_summary := VUndefined; entry_link := None |} in
  sample_store 1%positive = sample_store 2%positive
  ∧ writeEntry sample_store entry (RObject 2%positive)
    = "<entry><id>id</id><author><name>Bob</name>" +:+
      "<email>bob@test.com</email></author></entry>"
  ∧ writeEntry sample_store entry (RObject 1%positive)
    = "<entry><id>id</id></entry>".
Proof. repeat split. Qed.

(** ** Titles *)

(** C6, as stated, fails for the feed: the text resolver would give the
    title of the feed a type attribute, and [write] writes none. *)
Lemma feed_title_without_type :
  writeTextTag "title" (titled_feed (VString "title"))
    = "<title type=" +:+ dq +:+ "text" +:+ dq +:+ ">title</title>"
  ∧ (write sample_store (titled_feed (VString "title"))).1
    = prologue +:+ feed_open +:+ "<title>title</title></feed>"
  ∧ includes (write sample_store (titled_feed (VString "title"))).1 "type="
    = false.
Proof. repeat split; vm_compute; reflexivity. Qed.

(** C6, amended: the title of an entry is resolved as a text by
    [writeTextTag], a bare string as plain text, a structured title with the
    value and the type of the structure, and the type attribute is written
    whenever there is a type; the title of the feed is written by
    [writeEntityTag], a bare string as the content of a [title] element with
    no type attribute. *)
Theorem entry_title_is_text (σ : store) (entry : Entry) (feed : Feed)
    (feedAuthor : ref) :
  writeEntry σ entry feedAuthor =
    "<entry>" +:+ writeEntityTag "id" entry None +:+
    writeTextTag "title" entry +:+ entry_after_title σ entry feedAuthor
  ∧ (∀ s, entry_title entry = VString s →
       writeTextTag "title" entry =
         writeTag "title" (Some s) (Some [("type", TextType_string Plain)]))
  ∧ (∀ v ty, entry_title entry
             = VText {| text_value := v; text_type := Some ty |} →
       writeTextTag "title" entry =
         writeTag "title" (Some v) (Some [("type", TextType_string ty)]))
  ∧ (∀ v, entry_title entry = VText {| text_value := v; text_type := None |} →
       writeTextTag "title" entry = writeTag "title" (Some v) (Some []))
  ∧ (∀ c s ty,
       writeTag "title" (Some (String c s))
         (Some [("type", TextType_string ty)]) =
         "<title type=" +:+ dq +:+ TextType_string ty +:+ dq +:+ ">" +:+
         htmlEscape (String c s) +:+ "</title>")
  ∧ (∃ before after,
       (write σ feed).1 =
         before +:+ writeEntityTag "title" feed None +:+ after)
  ∧ (∀ c s, feed_title feed = VString (String c s) →
       writeEntityTag "title" feed None =
         "<title>" +:+ htmlEscape (String c s) +:+ "</title>").
Proof.
  split.
  { reflexivity. }
  split.
  { intros s Ht. by apply (writeTextTag_string "title" entry s). }
  split.
  { intros v ty Ht.
    by apply (writeTextTag_structured "title" entry v (Some ty)). }
  split.
  { intros v Ht. by apply (writeTextTag_structured "title" entry v None). }
  split.
  { intros c s ty. rewrite writeTag_nonempty, writeAttributes_type.
    by rewrite !append_assoc. }
  split.
  { eexists (prologue +:+ feed_open +:+ writeEntityTag "id" feed None), _.
    rewrite write_fst, !append_assoc. reflexivity. }
  intros c s Ht. unfold writeEntityTag.
  change (field "title" feed) with (feed_title feed). by rewrite Ht.
Qed.

(** ** Links *)

Section links.
Implicit Types (o : gmap string (option string)) (keys : list string).

(** The keys of a descriptor sort to one list, whatever the order in which
    they were inserted. *)
Lemma sort_keys_insertion_order o keys :
  keys ≡ₚ Object_keys o →
  merge_sort String.le keys = merge_sort String.le (Object_keys o).
Proof.
  intros Hp. apply (StronglySorted_unique String.le).
  - apply StronglySorted_merge_sort; apply _.
  - apply StronglySorted_merge_sort; apply _.
  - by rewrite !merge_sort_Permutation.
Qed.

Lemma elem_of_Object_keys o key :
  key ∈ Object_keys o ↔ is_Some (o !! key).
Proof.
  unfold Object_keys. rewrite list_elem_of_fmap. split.
  - intros ([k v] & -> & Hin). apply elem_of_map_to_list in Hin. by eexists.
  - intros [v Hv]. exists (key, v). split; [done|].
    by apply elem_of_map_to_list.
Qed.

Lemma writeLinkObject_sorted o :
  writeLinkObject o =
    "<link" +:+
    concat_strings
      (map (link_attribute o) (merge_sort String.le (Object_keys o))) +:+
    "/>".
Proof.
  unfold writeLinkObject.
  exact (f_equal (fun s => "<link" +:+ s +:+ "/>")
           (fold_left_append (link_attribute o) _ EmptyString)).
Qed.

Lemma link_attributes_present o keys :
  concat_strings (map (link_attribute o) keys) =
  concat_strings
    (map (fun key => " " +:+ key +:+ "=" +:+ dq +:+
                     default EmptyString (get_property o key) +:+ dq)
       (filter (fun key => is_Some (get_property o key)) keys)).
Proof.
  induction keys as [|k keys IH]; [done|].
  rewrite filter_cons. cbn [map]. rewrite concat_strings_cons, IH.
  unfold link_attribute at 1.
  destruct (get_property o k) as [v|] eqn:Hk.
  - rewrite decide_True by eauto. cbn [map].
    by rewrite concat_strings_cons, Hk, !append_assoc.
  - rewrite decide_False by (by intros [??]). done.
Qed.

Lemma StronglySorted_filter {A} (R : relation A) (P : A → Prop)
    `{∀ x, Decision (P x)} (l : list A) :
  StronglySorted R l → StronglySorted R (filter P l).
Proof.
  induction 1 as [|x l Hl IH Hx]; [constructor|].
  rewrite filter_cons. destruct (decide (P x)); [|done].
  constructor; [done|].
  apply Forall_forall. intros y [_ Hy]%list_elem_of_filter.
  by eapply Forall_forall in Hx.
Qed.

Lemma present_keys_spec o :
  StronglySorted String.le (present_keys o)
  ∧ NoDup (present_keys o)
  ∧ ∀ key, key ∈ present_keys o ↔ ∃ v, o !! key = Some (Some v).
Proof.
  unfold present_keys. split; [|split].
  - apply StronglySorted_filter, StronglySorted_merge_sort; apply _.
  - apply NoDup_filter. rewrite merge_sort_Permutation.
    apply NoDup_fst_map_to_list.
  - intros key. rewrite list_elem_of_filter, merge_sort_Permutation.
    rewrite elem_of_Object_keys. unfold get_property. split.
    + intros [[v Hv] _]. destruct (o !! key) as [[w|]|]; naive_solver.
    + intros [v Hv]. rewrite Hv. split; by eexists.
Qed.
End links.

(** C8, as stated, fails: a key that holds the empty string is written, with
    an empty value. *)
Lemma writeLink_empty_value :
  writeLink (OneLink (LinkObject empty_rel_link))
    = "<link href=" +:+ dq +:+ "h" +:+ dq +:+ " rel=" +:+ dq +:+ dq +:+ "/>"
  ∧ writeLink (OneLink (LinkObject {[ "href" := Some EmptyString ]}))
    = "<link href=" +:+ dq +:+ dq +:+ "/>".
Proof. split; vm_compute; reflexivity. Qed.

Lemma writeLink_text s :
  writeLink (OneLink (LinkText s)) =
    "<link href=" +:+ dq +:+ s +:+ dq +:+
    " rel=" +:+ dq +:+ "alternate" +:+ dq +:+ "/>".
Proof.
  cbn [writeLink writeOneLink]. rewrite writeLinkObject_sorted.
  set (o := <["href" := Some s]> (<["rel" := Some LinkRelation_Alternate]> ∅)).
  assert (Hk : merge_sort String.le (Object_keys o) = ["href"; "rel"])
    by (vm_compute; reflexivity).
  rewrite Hk. cbn [map]. rewrite !concat_strings_cons.
  assert (Hh : link_attribute o "href"
               = " href=" +:+ dq +:+ s +:+ dq) by reflexivity.
  assert (Hr : link_attribute o "rel"
               = " rel=" +:+ dq +:+ "alternate" +:+ dq) by reflexivity.
  rewrite Hh, Hr, !append_assoc. reflexivity.
Qed.

(** C8, amended: a bare string is written as the descriptor with that
    [href] and the relation [alternate]; a descriptor is written as one
    self-closing [link] element whose attributes are its keys in
    lexicographic order, a key being written exactly when it holds a string,
    the empty string included, so that [href] is always written; a sequence
    is written as its elements one after the other. *)
Theorem writeLink_spec (s : string) (o : gmap string (option string))
    (ls : list link_item) :
  writeLink (OneLink (LinkText s))
    = writeLink
        (OneLink (LinkObject
           (<["href" := Some s]> (<["rel" := Some "alternate"]> ∅))))
  ∧ writeLink (OneLink (LinkText s))
    = "<link href=" +:+ dq +:+ s +:+ dq +:+
      " rel=" +:+ dq +:+ "alternate" +:+ dq +:+ "/>"
  ∧ (∃ keys,
       writeLink (OneLink (LinkObject o)) =
         "<link" +:+
         concat_strings
           (map (fun key => " " +:+ key +:+ "=" +:+ dq +:+
                            default EmptyString (get_property o key) +:+ dq)
              keys) +:+
         "/>"
       ∧ StronglySorted String.le keys
       ∧ NoDup keys
       ∧ (∀ key, key ∈ keys ↔ ∃ v, o !! key = Some (Some v))
       ∧ (∀ h, o !! "href" = Some (Some h) →
            "href" ∈ keys ∧ get_property o "href" = Some h))
  ∧ writeLink (ManyLinks ls)
    = concat_strings (map (fun l => writeLink (OneLink l)) ls)
  ∧ writeLink (OneLink (LinkObject enclosure_link))
    = "<link href=" +:+ dq +:+ "http://x" +:+ dq +:+
      " rel=" +:+ dq +:+ "enclosure" +:+ dq +:+
      " type=" +:+ dq +:+ "atom+xml" +:+ dq +:+ "/>".
Proof.
  split; [reflexivity|]. split; [apply writeLink_text|]. split.
  { exists (present_keys o).
    destruct (present_keys_spec o) as (Hs & Hn & Hk).
    split; [|split; [done|split; [done|split; [done|]]]].
    - cbn [writeLink writeOneLink].
      by rewrite writeLinkObject_sorted, link_attributes_present.
    - intros h Hh. split; [apply Hk; eauto|].
      unfold get_property. by rewrite Hh. }
  split.
  { cbn [writeLink]. by rewrite fold_left_append. }
  vm_compute. reflexivity.
Qed.

(** ** No link element in the document *)

Section scan.
Implicit Types (s t : string) (b : bool).

Lemma scan_app b s t : scan b (s +:+ t) = scan b s ≫= fun b' => scan b' t.
Proof.
  revert b. induction s as [|c s IH]; intros b; [done|].
  rewrite append_cons. cbn [scan].
  destruct (b && Ascii.eqb c "l"); [done|]. apply IH.
Qed.

(** Starting after a bracket is the stricter start. *)
Lemma scan_weaken s : scan true s = Some false → scan false s = Some false.
Proof.
  destruct s as [|c s]; [done|]. cbn [scan andb].
  by destruct (Ascii.eqb c "l").
Qed.

Lemma clean_empty : clean EmptyString.
Proof. done. Qed.

Lemma clean_app s t : clean s → clean t → clean (s +:+ t).
Proof. unfold clean. intros Hs Ht. by rewrite scan_app, Hs. Qed.

Lemma clean_concat (l : list string) :
  Forall clean l → clean (concat_strings l).
Proof.
  induction 1 as [|s l Hs _ IH]; [done|].
  rewrite concat_strings_cons. by apply clean_app.
Qed.

(** A scan that succeeds has not met the start of a link element. *)
Lemma scan_includes s b b' :
  scan b s = Some b' → includes s "<link" = false.
Proof.
  revert b. induction s as [|c s IH]; intros b Hs; [done|].
  cbn [includes]. cbn [scan] in Hs.
  destruct (b && Ascii.eqb c "l"); [done|].
  rewrite (IH _ Hs), orb_false_r.
  cbn [String.prefix]. destruct (ascii_dec "<" c) as [<-|]; [|done].
  destruct s as [|d s]; [done|].
  cbn [String.prefix]. destruct (ascii_dec "l" d) as [<-|]; [|done].
  cbn in Hs. done.
Qed.

Lemma clean_includes s : clean s → includes s "<link" = false.
Proof. apply scan_includes. Qed.

Lemma htmlEscape_char_clean c : clean (htmlEscape_char c).
Proof.
  unfold htmlEscape_char.
  destruct (Ascii.eqb c "&"); [done|].
  destruct (Ascii.eqb c "<") eqn:Hlt; [done|].
  destruct (Ascii.eqb c ">"); [done|].
  destruct (Ascii.eqb c (ascii_of_nat 34)); [done|].
  destruct (Ascii.eqb c apostrophe); [done|].
  unfold clean. cbn. by rewrite Hlt.
Qed.

Lemma htmlEscape_clean s : clean (htmlEscape s).
Proof.
  induction s as [|c s IH]; [done|].
  cbn [htmlEscape]. apply clean_app; [apply htmlEscape_char_clean|done].
Qed.

Lemma clean_open name rest :
  clean_name name → clean rest → clean ("<" +:+ name +:+ rest).
Proof.
  unfold clean_name, clean. intros Hn Hr.
  change ("<" +:+ name +:+ rest) with (String "<" (name +:+ rest)).
  cbn [scan andb]. change (Ascii.eqb "<" "<") with true.
  by rewrite scan_app, Hn.
Qed.

Lemma clean_close name rest :
  clean_name name → clean rest → clean ("</" +:+ name +:+ rest).
Proof.
  unfold clean_name, clean. intros Hn%scan_weaken Hr.
  change ("</" +:+ name +:+ rest)
    with (String "<" (String "/" (name +:+ rest))).
  cbn [scan andb]. change (Ascii.eqb "<" "<") with true.
  change (Ascii.eqb "/" "l") with false. change (Ascii.eqb "/" "<") with false.
  cbn [andb]. by rewrite scan_app, Hn.
Qed.

Lemma writeTag_clean name value attr :
  clean_name name → clean (writeAttributes attr) →
  clean (writeTag name value attr).
Proof.
  intros Hn Ha. unfold writeTag. destruct (is_empty value); [done|].
  apply clean_open; [done|]. apply clean_app; [done|].
  apply clean_app; [done|]. apply clean_app; [apply htmlEscape_clean|].
  by apply clean_close.
Qed.

Lemma writeEntityTag_clean {T} `{Entity T} name (entity : T) :
  clean_name name → clean (writeEntityTag name entity None).
Proof. intros Hn. by apply writeTag_clean. Qed.

Lemma writeTextTag_clean {T} `{Entity T} name (entity : T) :
  clean_name name → clean (writeTextTag name entity).
Proof.
  intros Hn. unfold writeTextTag.
  destruct (field name entity) as [| |v|d|[v [ty|]]]; cbn;
    try (apply writeTag_clean; [done|]); try done.
  by destruct ty.
Qed.

Lemma writeOnePerson_clean tag p : clean (writeOnePerson tag p).
Proof.
  unfold writeOnePerson.
  apply clean_open; [by destruct tag|].
  repeat (apply clean_app; [done || by apply writeEntityTag_clean|]).
  apply clean_close; [by destruct tag|done].
Qed.

Lemma writePerson_clean tag person : clean (writePerson tag person).
Proof.
  destruct person as [[p|ps]|]; cbn [writePerson];
    [apply writeOnePerson_clean| |done].
  rewrite fold_left_append. apply clean_app; [done|].
  apply clean_concat, Forall_forall.
  intros s (p & -> & _)%list_elem_of_fmap. apply writeOnePerson_clean.
Qed.

Lemma writeEntry_clean σ entry feedAuthor :
  clean (writeEntry σ entry feedAuthor).
Proof.
  unfold writeEntry.
  repeat apply clean_app;
    try (by apply writeEntityTag_clean);
    try (by apply writeTextTag_clean);
    try apply writePerson_clean; try done.
  destruct (loose_eq _ _); [done|apply writePerson_clean].
Qed.

Lemma write_clean σ feed : clean (write σ feed).1.
Proof.
  rewrite write_fst, writeGenerator_fst.
  repeat apply clean_app;
    try (by apply writeEntityTag_clean);
    try apply writePerson_clean; try done.
  apply clean_concat, Forall_forall.
  intros s (e & -> & _)%list_elem_of_fmap. apply writeEntry_clean.
Qed.
End scan.

(** C10: the document that [write] returns holds no [link] element, and it
    is the document of the feed with the links of its entries removed: the
    link of an entry has no effect on it. *)
Theorem write_no_link (σ : store) (feed : Feed) :
  includes (write σ feed).1 "<link" = false
  ∧ (write σ feed).1 = (write σ (without_links feed)).1
  ∧ (∀ entry feedAuthor link,
       writeEntry σ entry feedAuthor =
       writeEntry σ
         {| entry_id := entry_id entry;
            entry_title := entry_title entry;
            entry_updated := entry_updated entry;
            entry_published := entry_published entry;
            entry_author := entry_author entry;
            entry_contributor := entry_contributor entry;
            entry_rights := entry_rights entry;
            entry_content := entry_content entry;
            entry_summary := entry_summary entry;
            entry_link := link |}
         feedAuthor).
Proof.
  split; [apply clean_includes, write_clean|]. split; [|done].
  rewrite !write_fst. cbn [without_links feed_author feed_generator feed_entry].
  by rewrite map_map.
Qed.

(** ** Further properties of the writers *)

(** *** Attributes *)

Lemma writeAttributes_keys (m : Attributes) :
  writeAttributes (Some m) =
    concat_strings
      (map (fun key => " " +:+ key +:+ "=" +:+ dq +:+
                       template_get (Map_get m key) +:+ dq)
         (Map_keys m)).
Proof.
  unfold writeAttributes.
  exact (fold_left_append
           (fun key => " " +:+ key +:+ "=" +:+ dq +:+
                       template_get (Map_get m key) +:+ dq)
           (Map_keys m) EmptyString).
Qed.

Lemma Map_get_elem_of (m : Attributes) k v :
  NoDup (Map_keys m) → (k, v) ∈ m → Map_get m k = Some v.
Proof.
  unfold Map_keys. induction m as [|[k' v'] m IH]; intros Hnd Hin.
  - by apply elem_of_nil in Hin.
  - apply NoDup_cons in Hnd as [Hk' Hnd]. cbn [Map_get].
    apply elem_of_cons in Hin as [[= -> ->]|Hin].
    + by rewrite decide_True.
    + rewrite decide_False; [by apply IH|].
      intros ->. apply Hk'. apply list_elem_of_fmap. by exists (k, v).
Qed.

Lemma Map_get_pairs (m0 m : Attributes) :
  (∀ k v, (k, v) ∈ m → Map_get m0 k = Some v) →
  map (fun key => " " +:+ key +:+ "=" +:+ dq +:+
                  template_get (Map_get m0 key) +:+ dq)
    (Map_keys m)
  = map attribute_pair m.
Proof.
  induction m as [|[k v] m IH]; intros Hget; [done|].
  unfold Map_keys, attribute_pair. cbn [fmap list_fmap map fst snd]. f_equal.
  - rewrite (Hget k v) by apply list_elem_of_here. done.
  - apply IH. intros k' v' Hin. apply Hget. by apply list_elem_of_further.
Qed.

(** X1: for a map, whose keys are distinct, [writeAttributes] writes every
    pair once, in insertion order, each as a space, the key and the value
    between quotes, the value as it is. *)
Theorem writeAttributes_pairs (m : Attributes) :
  NoDup (Map_keys m) →
  writeAttributes (Some m) = concat_strings (map attribute_pair m).
Proof.
  intros Hnd. rewrite writeAttributes_keys. f_equal.
  apply Map_get_pairs. intros k v. by apply Map_get_elem_of.
Qed.

Lemma writeAttributes_pairs_witness :
  writeAttributes (Some [("a", "1"); ("b", "2")])
    = concat_strings (map attribute_pair [("a", "1"); ("b", "2")]).
Proof.
  apply (writeAttributes_pairs [("a", "1"); ("b", "2")]).
  unfold Map_keys. cbn [fmap list_fmap fst].
  apply (bool_decide_unpack _). vm_compute. exact I.
Defined.

(** X2: [writeAttributes] returns the empty string exactly for an absent
    map and for a map with no key. *)
Theorem writeAttributes_empty_iff (attr : option Attributes) :
  writeAttributes attr = EmptyString ↔ attr = None ∨ attr = Some [].
Proof.
  split.
  - destruct attr as [[|[k v] m]|]; [by right| |by left].
    rewrite writeAttributes_keys. unfold Map_keys. cbn [fmap list_fmap map].
    rewrite concat_strings_cons. intros Hw. discriminate Hw.
  - by intros [->| ->].
Qed.

(** *** Entity tags and text tags *)

Lemma is_empty_Some s : is_empty (Some s) = true ↔ s = EmptyString.
Proof. cbn. destruct (decide (s = EmptyString)); naive_solver. Qed.

(** X3: for a key that the entity declares as a scalar field, and dates
    that have a text, [writeEntityTag] writes nothing exactly when the field
    holds [undefined], [null] or the empty string, whatever the
    attributes. *)
Theorem writeEntityTag_empty_iff {T} `{ScalarKeys T} (name : string)
    (entity : T) (attr : option Attributes) :
  name ∈ scalar_keys →
  (∀ d, field name entity = VDate d → toISOString d ≠ EmptyString) →
  writeEntityTag name entity attr = EmptyString ↔
    field name entity = VUndefined
    ∨ field name entity = VNull
    ∨ field name entity = VString EmptyString.
Proof.
  intros _ Hdate. unfold writeEntityTag.
  rewrite writeTag_empty_iff, is_empty_Some.
  destruct (field name entity) as [| |s|d|t] eqn:Hf.
  - naive_solver.
  - naive_solver.
  - split; [intros ->; auto|]. by intros [|[|[= ->]]].
  - split; [intros Hd; by destruct (Hdate d)|]. by intros [|[|]].
  - split; [done|]. by intros [|[|]].
Qed.

Lemma writeEntityTag_empty_iff_witness :
  writeEntityTag "uri" bob None = EmptyString ↔
    field "uri" bob = VUndefined
    ∨ field "uri" bob = VNull
    ∨ field "uri" bob = VString EmptyString.
Proof.
  apply (writeEntityTag_empty_iff "uri" bob None).
  - apply (bool_decide_unpack _). vm_compute. exact I.
  - intros d Hd. discriminate Hd.
Defined.

(** X4: a field that holds a structured text is written by [writeEntityTag]
    as the text of an object, whatever the value and the type of the text. *)
Theorem writeEntityTag_structured_text {T} `{Entity T} (name : string)
    (entity : T) (t : Text) (attr : option Attributes) :
  field name entity = VText t →
  writeEntityTag name entity attr =
    "<" +:+ name +:+ writeAttributes attr +:+ ">[object Object]</" +:+
    name +:+ ">".
Proof. intros Hf. unfold writeEntityTag. rewrite Hf. reflexivity. Qed.

Lemma writeEntityTag_structured_text_witness :
  writeEntityTag "title"
    (titled_feed (VText {| text_value := "T"; text_type := Some HTML |})) None
  = "<" +:+ "title" +:+ writeAttributes None +:+ ">[object Object]</" +:+
    "title" +:+ ">".
Proof.
  apply (writeEntityTag_structured_text "title"
           (titled_feed (VText {| text_value := "T"; text_type := Some HTML |}))
           {| text_value := "T"; text_type := Some HTML |} None).
  reflexivity.
Defined.


(** *** The document and the generator *)

(** X6: the document that [write] returns does not depend on the generator
    of the feed. *)
Theorem write_ignores_generator (σ : store) (feed : Feed)
    (g : option Generator) :
  (write σ (with_generator feed g)).1 = (write σ feed).1.
Proof. by rewrite !write_fst, !writeGenerator_fst. Qed.

Lemma write_snd (σ : store) (feed : Feed) :
  (write σ feed).2
  = with_generator feed (set_generator <$> feed_generator feed).
Proof.
  unfold write.
  pose proof (writeGenerator_snd (feed_generator feed)) as Hg.
  destruct (writeGenerator (feed_generator feed)) as [generator g].
  cbn in Hg. by subst g.
Qed.

(** X7: serializing again the feed that [write] leaves behind returns the
    same document and changes the feed no more. *)
Theorem write_twice (σ : store) (feed : Feed) :
  (write σ (write σ feed).2).1 = (write σ feed).1
  ∧ (write σ (write σ feed).2).2 = (write σ feed).2.
Proof.
  rewrite !write_snd. split.
  - by rewrite !write_fst, !writeGenerator_fst.
  - unfold with_generator. cbn. by destruct (feed_generator feed).
Qed.

(** *** Persons *)

Lemma writePerson_many tag ps :
  writePerson tag (Some (ManyPersons ps))
  = concat_strings (map (writeOnePerson tag) ps).
Proof. cbn [writePerson]. by rewrite fold_left_append. Qed.

Lemma concat_strings_map {A} (f : A → string) (xs ys : list A) :
  concat_strings (map f (xs ++ ys))
  = concat_strings (map f xs) +:+ concat_strings (map f ys).
Proof. by rewrite map_app, concat_strings_app. Qed.

(** X8: writing a sequence of persons composes: two sequences one after the
    other are written as the first followed by the second, a sequence of one
    person as that person alone, and a person put in front of a sequence as
    the person followed by the sequence. *)
Theorem writePerson_app (tag : role) (ps qs : list Person) (p : Person) :
  writePerson tag (Some (ManyPersons (ps ++ qs)))
    = writePerson tag (Some (ManyPersons ps)) +:+
      writePerson tag (Some (ManyPersons qs))
  ∧ writePerson tag (Some (ManyPersons [p]))
    = writePerson tag (Some (OnePerson p))
  ∧ writePerson tag (Some (ManyPersons (p :: ps)))
    = writePerson tag (Some (OnePerson p)) +:+
      writePerson tag (Some (ManyPersons ps)).
Proof.
  rewrite !writePerson_many. split; [apply concat_strings_map|].
  split.
  - cbn [map]. rewrite concat_strings_cons. apply append_empty_r.
  - reflexivity.
Qed.

Lemma writeOnePerson_nonempty tag p : writeOnePerson tag p ≠ EmptyString.
Proof. unfold writeOnePerson. intros Hw. discriminate Hw. Qed.

(** X9: [writePerson] returns the empty string only when there is no person
    or the sequence is empty; a person with no name, uri or email still
    writes an element. *)
Theorem writePerson_empty_iff (tag : role) (person : option persons) :
  writePerson tag person = EmptyString ↔
    person = None ∨ person = Some (ManyPersons []).
Proof.
  split.
  - destruct person as [[p|[|p ps]]|]; [|by right| |by left].
    + intros Hw. by apply writeOnePerson_nonempty in Hw.
    + rewrite writePerson_many. cbn [map]. rewrite concat_strings_cons.
      unfold writeOnePerson. intros Hw. discriminate Hw.
  - by intros [->| ->].
Qed.

(** *** Links *)

Lemma writeLink_many ls :
  writeLink (ManyLinks ls) = concat_strings (map writeOneLink ls).
Proof. cbn [writeLink]. by rewrite fold_left_append. Qed.

(** X10: writing a sequence of links composes in the same way: two
    sequences one after the other, a sequence of one link, and a link put in
    front of a sequence. *)
Theorem writeLink_app (ls ms : list link_item) (l : link_item) :
  writeLink (ManyLinks (ls ++ ms))
    = writeLink (ManyLinks ls) +:+ writeLink (ManyLinks ms)
  ∧ writeLink (ManyLinks [l]) = writeLink (OneLink l)
  ∧ writeLink (ManyLinks (l :: ls))
    = writeLink (OneLink l) +:+ writeLink (ManyLinks ls).
Proof.
  rewrite !writeLink_many. split; [apply concat_strings_map|].
  split.
  - cbn [map]. rewrite concat_strings_cons. apply append_empty_r.
  - reflexivity.
Qed.

Lemma writeOneLink_nonempty l : writeOneLink l ≠ EmptyString.
Proof.
  destruct l; cbn [writeOneLink]; unfold writeLinkObject;
    intros Hw; discriminate Hw.
Qed.

(** X11: [writeLink] returns the empty string only for the empty sequence;
    every single link, also a descriptor with no key, writes an element. *)
Theorem writeLink_empty_iff (link : link_arg) :
  writeLink link = EmptyString ↔ link = ManyLinks [].
Proof.
  split; [|by intros ->].
  destruct link as [l|[|l ls]]; [|done|].
  - intros Hw. by apply writeOneLink_nonempty in Hw.
  - rewrite writeLink_many. cbn [map]. rewrite concat_strings_cons.
    intros Hw. destruct (writeOneLink l) eqn:Hl; [|discriminate Hw].
    by apply writeOneLink_nonempty in Hl.
Qed.

Lemma lookup_get_property (o : gmap string (option string)) key v :
  o !! key = Some (Some v) ↔ get_property o key = Some v.
Proof. unfold get_property. destruct (o !! key) as [[w|]|]; naive_solver. Qed.

Lemma present_keys_ext (o o' : gmap string (option string)) :
  (∀ key, get_property o key = get_property o' key) →
  present_keys o = present_keys o'.
Proof.
  intros Hget.
  destruct (present_keys_spec o) as (Hs & Hn & Hk).
  destruct (present_keys_spec o') as (Hs' & Hn' & Hk').
  apply (StronglySorted_unique String.le); [done..|].
  apply NoDup_Permutation; [done..|].
  intros key. rewrite Hk, Hk'.
  setoid_rewrite lookup_get_property. by rewrite Hget.
Qed.

Lemma writeLinkObject_present o :
  writeLinkObject o =
    "<link" +:+
    concat_strings
      (map (fun key => " " +:+ key +:+ "=" +:+ dq +:+
                       default EmptyString (get_property o key) +:+ dq)
         (present_keys o)) +:+
    "/>".
Proof. by rewrite writeLinkObject_sorted, link_attributes_present. Qed.

Lemma writeLinkObject_ext (o o' : gmap string (option string)) :
  (∀ key, get_property o key = get_property o' key) →
  writeLinkObject o = writeLinkObject o'.
Proof.
  intros Hget. rewrite !writeLinkObject_present.
  rewrite (present_keys_ext o o' Hget). do 3 f_equal.
  apply map_ext. intros key. by rewrite Hget.
Qed.

(** X12: a descriptor is written from what its keys read as: two
    descriptors whose every key reads alike, a missing key and a key that
    holds [null] or [undefined] reading alike, are written as the same
    element. *)
Theorem writeLink_reads_properties (o o' : gmap string (option string)) :
  (∀ key, get_property o key = get_property o' key) →
  writeLink (OneLink (LinkObject o)) = writeLink (OneLink (LinkObject o')).
Proof. apply writeLinkObject_ext. Qed.

Lemma get_property_null_rel key :
  get_property null_rel_link key = get_property ∅ key.
Proof.
  unfold get_property, null_rel_link.
  destruct (decide (key = "rel")) as [->|Hne].
  - by rewrite lookup_insert_eq, lookup_empty.
  - by rewrite lookup_insert_ne.
Qed.

Lemma writeLink_reads_properties_witness :
  writeLink (OneLink (LinkObject null_rel_link))
  = writeLink (OneLink (LinkObject ∅)).
Proof.
  apply (writeLink_reads_properties null_rel_link ∅).
  exact get_property_null_rel.
Defined.

(** X13: a key that holds nothing is written like no key at all: giving a
    key [null] or [undefined] and deleting the key yield the same element. *)
Theorem writeLink_null_key (o : gmap string (option string)) (key : string) :
  writeLink (OneLink (LinkObject (<[key := None]> o)))
  = writeLink (OneLink (LinkObject (delete key o))).
Proof.
  cbn [writeLink writeOneLink]. apply writeLinkObject_ext.
  intros k. unfold get_property.
  destruct (decide (k = key)) as [->|Hne].
  - by rewrite lookup_insert_eq, lookup_delete_eq.
  - by rewrite lookup_insert_ne, lookup_delete_ne.
Qed.

(** X14: a descriptor none of whose keys holds a string is written as the
    bare element. *)
Theorem writeLink_no_property (o : gmap string (option string)) :
  (∀ key, get_property o key = None) →
  writeLink (OneLink (LinkObject o)) = "<link/>".
Proof.
  intros Hnone. cbn [writeLink writeOneLink].
  rewrite (writeLinkObject_ext o ∅); [by vm_compute|].
  intros key. rewrite Hnone. unfold get_property. by rewrite lookup_empty.
Qed.

Lemma writeLink_no_property_witness :
  writeLink (OneLink (LinkObject null_rel_link)) = "<link/>".
Proof.
  apply (writeLink_no_property null_rel_link).
  intros key. rewrite get_property_null_rel.
  unfold get_property. by rewrite lookup_empty.
Defined.

(** *** Entries, the author of the feed and the store *)

(** X15: [writeEntry] uses the author of the feed only to tell whether it is
    the object that is the author of the entry: two feed authors that agree
    on that give the same entry, and for an entry with no author the author
    of the feed does not matter. *)
Theorem writeEntry_feedAuthor (σ : store) (entry : Entry)
    (feedAuthor feedAuthor' : ref) :
  (∀ l, entry_author entry = RObject l →
     (feedAuthor = RObject l ↔ feedAuthor' = RObject l)) →
  writeEntry σ entry feedAuthor = writeEntry σ entry feedAuthor'.
Proof.
  intros Hsame. rewrite !writeEntry_parts.
  destruct (entry_author entry) as [| |l] eqn:Ha.
  - by destruct feedAuthor, feedAuthor'.
  - by destruct feedAuthor, feedAuthor'.
  - rewrite !loose_eq_object.
    by rewrite (bool_decide_ext _ _ (Hsame l eq_refl)).
Qed.

Lemma writeEntry_feedAuthor_witness :
  writeEntry sample_store authored_entry (RObject 2%positive)
  = writeEntry sample_store authored_entry RUndefined.
Proof.
  apply (writeEntry_feedAuthor sample_store authored_entry
           (RObject 2%positive) RUndefined).
  intros l [= <-]. split; intros Heq; discriminate Heq.
Defined.

Lemma deref_agree (σ σ' : store) (r : ref) :
  (∀ l, l ∈ ref_locs r → σ l = σ' l) → deref σ r = deref σ' r.
Proof.
  destruct r as [| |l]; [done..|]. intros Hl. cbn.
  f_equal. apply Hl. apply list_elem_of_here.
Qed.

Lemma writeEntry_store_agree (σ σ' : store) entry feedAuthor :
  (∀ l, l ∈ entry_locs entry → σ l = σ' l) →
  writeEntry σ entry feedAuthor = writeEntry σ' entry feedAuthor.
Proof.
  intros Hl. unfold writeEntry, entry_locs in *.
  rewrite (deref_agree σ σ' (entry_author entry)),
    (deref_agree σ σ' (entry_contributor entry)); [done|..];
    intros l Hin; apply Hl, elem_of_app; auto.
Qed.

(** X16: [write] reads the store only where the feed points: two stores that
    hold the same objects at the author of the feed and at the authors and
    contributors of its entries give the same document. *)
Theorem write_store_agree (σ σ' : store) (feed : Feed) :
  (∀ l, l ∈ feed_locs feed → σ l = σ' l) →
  (write σ feed).1 = (write σ' feed).1.
Proof.
  intros Hl. rewrite !write_fst. unfold feed_locs in Hl.
  rewrite (deref_agree σ σ' (feed_author feed))
    by (intros l Hin; apply Hl, elem_of_app; auto).
  assert (He : map (fun e => writeEntry σ e (feed_author feed)) (feed_entry feed)
             = map (fun e => writeEntry σ' e (feed_author feed))
                 (feed_entry feed)); [|by rewrite He].
  apply map_ext_in. intros e He%list_elem_of_In.
  apply writeEntry_store_agree. intros l Hin.
  apply Hl, elem_of_app. right.
  apply list_elem_of_In, in_flat_map. exists e.
  split; by apply list_elem_of_In.
Qed.

Lemma write_store_agree_witness :
  (write sample_store sample_feed).1 = (write bob_first_store sample_feed).1.
Proof.
  apply (write_store_agree sample_store bob_first_store sample_feed).
  intros l Hl. cbn in Hl. apply list_elem_of_singleton in Hl. by subst l.
Defined.

(** X17: for a field that holds a bare string, the text tag is the entity
    tag of the field with the attribute of the plain type. *)
Theorem writeTextTag_bare_string {T} `{Entity T} (name : string) (entity : T)
    (s : string) :
  field name entity = VString s →
  writeTextTag name entity
  = writeEntityTag name entity (Some [("type", TextType_string Plain)]).
Proof.
  intros Hf. rewrite (writeTextTag_string name entity s Hf).
  unfold writeEntityTag. by rewrite Hf.
Qed.

Lemma writeTextTag_bare_string_witness :
  writeTextTag "title" sample_entry
  = writeEntityTag "title" sample_entry
      (Some [("type", TextType_string Plain)]).
Proof.
  apply (writeTextTag_bare_string "title" sample_entry "title").
  reflexivity.
Defined.
